(** * Tajweed-ul-Quran viewer: navigation state, view resolution and rendering helpers

    A shallow embedding of the page component [TajweedApp] (the content
    browser of the application): the three pieces of React state, the click
    handlers, the values derived on every render ([isSidebarOpen],
    [selectedChapterData], [selectedSectionData], [sortedChapters]), the
    conditional chain choosing the main view, the icon table and the notes
    block.  Identifiers follow the TypeScript source. *)

From Stdlib Require Import String List ZArith Bool Lia Sorted Permutation.
Import ListNotations.

Local Open Scope string_scope.
Local Open Scope list_scope.

(** ** JavaScript values used by the component *)

(** A React state cell of type [string | null]: [None] is [null]. *)
Definition Nullable := option string.

(** Truthiness of a [string | null] value, as tested by [!x] and [x && ...]:
    [null] and the empty string are falsy, every other string is truthy. *)
Definition truthy (x : Nullable) : bool :=
  match x with
  | None => false
  | Some s => negb (s =? "")
  end.

(** [s === x] for a string [s] and a [string | null] value [x]. *)
Definition strictEq (s : string) (x : Nullable) : bool :=
  match x with
  | None => false
  | Some t => s =? t
  end.

(** ** Content store: the bundled JSON document *)

Record Sect := mkSect {
  sec_id : string;
  sec_title : string;
  sec_subtitle : string;
  content : list string;
  notes : option (list string)        (* an optional JSON member *)
}.

Record Chapter := mkChapter {
  id : string;
  title : string;
  subtitle : string;
  icon : string;
  order : Z;
  sections : list Sect
}.

Record Meta := mkMeta {
  meta_title : string;
  meta_subtitle : string;
  meta_description : string
}.

Record FiqhContent := mkContent {
  meta : Meta;
  chapters : list Chapter
}.

(** ** Navigation state: the three [useState] cells *)

Record State := mkState {
  selectedChapter : Nullable;
  selectedSection : Nullable;
  sidebarOpen : bool
}.

(** [useState(null)], [useState(null)], [useState(true)]. *)
Definition initialState : State :=
  {| selectedChapter := None; selectedSection := None; sidebarOpen := true |}.

(** ** Values derived on every render

    [isMobile] is the result of the hook [useIsMobile]; it is an input of
    every render and of every handler closure. *)

Definition sidebarShouldBeOpen (isMobile : bool) (st : State) : bool :=
  negb isMobile || negb (truthy (selectedChapter st)).

Definition isSidebarOpen (isMobile : bool) (st : State) : bool :=
  if sidebarOpen st then sidebarShouldBeOpen isMobile st else false.

Definition selectedChapterData (fc : FiqhContent) (st : State) : option Chapter :=
  find (fun ch => strictEq (id ch) (selectedChapter st)) (chapters fc).

(** [selectedChapterData?.sections.find(...)]: [undefined] when the chapter
    lookup is [undefined]. *)
Definition selectedSectionData (fc : FiqhContent) (st : State) : option Sect :=
  match selectedChapterData fc st with
  | Some ch => find (fun sec => strictEq (sec_id sec) (selectedSection st)) (sections ch)
  | None => None
  end.

(** ** Handlers *)

Definition handleChapterClick (isMobile : bool) (chapterId : string) (st : State) : State :=
  {| selectedChapter := Some chapterId;
     selectedSection := None;
     sidebarOpen := if isMobile then false else sidebarOpen st |}.

Definition handleSectionClick (sectionId : string) (st : State) : State :=
  {| selectedChapter := selectedChapter st;
     selectedSection := Some sectionId;
     sidebarOpen := sidebarOpen st |}.

Definition handleBackToChapters (st : State) : State :=
  {| selectedChapter := selectedChapter st;
     selectedSection := None;
     sidebarOpen := sidebarOpen st |}.

(** The header button: [setSidebarOpen(!isSidebarOpen)], with the
    [isSidebarOpen] of the render the closure was created in. *)
Definition toggleSidebar (isMobile : bool) (st : State) : State :=
  {| selectedChapter := selectedChapter st;
     selectedSection := selectedSection st;
     sidebarOpen := negb (isSidebarOpen isMobile st) |}.

(** [setSidebarOpen(b)]; the overlay and the close button call it with
    [false]. *)
Definition setSidebarOpen (b : bool) (st : State) : State :=
  {| selectedChapter := selectedChapter st;
     selectedSection := selectedSection st;
     sidebarOpen := b |}.

(** ** Events and the transition function *)

Inductive Event :=
| ChapterClick (chapterId : string)
| SectionClick (sectionId : string)
| BackToChapters
| ToggleSidebar
| SetSidebar (b : bool).

Definition step (isMobile : bool) (st : State) (e : Event) : State :=
  match e with
  | ChapterClick c => handleChapterClick isMobile c st
  | SectionClick s => handleSectionClick s st
  | BackToChapters => handleBackToChapters st
  | ToggleSidebar => toggleSidebar isMobile st
  | SetSidebar b => setSidebarOpen b st
  end.

(** Events are handled one at a time, each to completion, under the viewport
    class current at that moment. *)
Fixpoint run (st : State) (evs : list (bool * Event)) : State :=
  match evs with
  | [] => st
  | (isMobile, e) :: rest => run (step isMobile st e) rest
  end.

(** The documented precondition of an operation: a section can be selected
    only while a chapter is. *)
Definition precondition (st : State) (e : Event) : bool :=
  match e with
  | SectionClick _ => match selectedChapter st with Some _ => true | None => false end
  | _ => true
  end.

Inductive reachable : State -> Prop :=
| reach_init : reachable initialState
| reach_step (isMobile : bool) (st : State) (e : Event) :
    reachable st -> precondition st e = true -> reachable (step isMobile st e).

(** ** Sorting the chapters

    [[...fiqhContent.chapters].sort((a, b) => a.order - b.order)].
    [Array.prototype.sort] is a stable sort (ECMAScript 2019 and later); the
    engine's algorithm is not fixed by the language, so the built-in is
    embedded as a stable insertion sort driven by the sign of the comparator,
    and [stable_sort_unique] below shows that every sorted, stable
    arrangement of the input is this one. *)

Section ArraySort.
Context {T : Type}.
Variable compareFn : T -> T -> Z.

(** [x] came before every element of [l] in the input: it goes in front of
    the first element it does not have to follow. *)
Fixpoint insertSorted (x : T) (l : list T) : list T :=
  match l with
  | [] => [x]
  | y :: l' =>
      if (0 <? compareFn x y)%Z then y :: insertSorted x l' else x :: y :: l'
  end.

Fixpoint arraySort (l : list T) : list T :=
  match l with
  | [] => []
  | x :: l' => insertSorted x (arraySort l')
  end.

End ArraySort.

Definition compareOrder (a b : Chapter) : Z := (order a - order b)%Z.

Definition sortedChapters (fc : FiqhContent) : list Chapter :=
  arraySort compareOrder (chapters fc).

(** One render of the sorted list, with the store made explicit: the spread
    [[...a]] allocates a new array and [sort] reorders that copy in place, so
    the array held by the store comes back as it went in. *)
Definition renderSortedChapters (store : list Chapter) : list Chapter * list Chapter :=
  let copy := store in
  (store, arraySort compareOrder copy).

(** The lists displayed by [n] successive renders. *)
Fixpoint renders (n : nat) (store : list Chapter) : list (list Chapter) :=
  match n with
  | O => []
  | S n' =>
      let '(store', shown) := renderSortedChapters store in
      shown :: renders n' store'
  end.

(** The chapters of one [order] value, in list order. *)
Definition withOrder (k : Z) (l : list Chapter) : list Chapter :=
  filter (fun c => (order c =? k)%Z) l.

Definition orderLe (a b : Chapter) : Prop := (order a <= order b)%Z.

(** ** The main display area

    The conditional chain of the component:
    [!selectedChapter ? home : selectedChapterData && !selectedSection ?
     chapter detail : selectedSectionData && selectedChapterData ? section
     detail : null]. *)

Inductive View :=
| ChapterList (chs : list Chapter)            (* home page: all chapters *)
| SectionList (ch : Chapter)                  (* chapter detail: all sections *)
| SectionDetail (ch : Chapter) (sec : Sect)   (* section detail: full content *)
| Blank.                                      (* null: nothing is rendered *)

Definition mainView (fc : FiqhContent) (st : State) : View :=
  if negb (truthy (selectedChapter st)) then ChapterList (sortedChapters fc)
  else
    match selectedChapterData fc st, truthy (selectedSection st) with
    | Some ch, false => SectionList ch
    | _, _ =>
        match selectedSectionData fc st, selectedChapterData fc st with
        | Some sec, Some ch => SectionDetail ch sec
        | _, _ => Blank
        end
    end.

(** ** JSX values

    What an expression in braces evaluates to, and what React puts on the
    page for it: [undefined], [null] and [false] render nothing. *)

Inductive Jsx (E : Type) :=
| JsxUndefined
| JsxNull
| JsxFalse
| JsxElement (e : E).

Arguments JsxUndefined {E}.
Arguments JsxNull {E}.
Arguments JsxFalse {E}.
Arguments JsxElement {E} e.

Definition rendered {E : Type} (v : Jsx E) : option E :=
  match v with
  | JsxElement e => Some e
  | _ => None
  end.

(** [Array.prototype.map] with the callback's second argument, the index. *)
Fixpoint mapFrom {A B : Type} (f : A -> nat -> B) (index : nat) (l : list A) : list B :=
  match l with
  | [] => []
  | x :: l' => f x index :: mapFrom f (S index) l'
  end.

Definition arrayMap {A B : Type} (f : A -> nat -> B) (l : list A) : list B :=
  mapFrom f 0 l.

(** ** Icons *)

(** The nine components of the table; [N], [M] and [A] are the inline
    components drawing one Arabic letter each. *)
Inductive Glyph :=
| BookOpen | MapPin | Sparkles | LetterN | LetterM | Clock | Pause | LetterA | Scale.

Definition iconTable : list (string * Glyph) :=
  [ ("BookOpen", BookOpen); ("MapPin", MapPin); ("Sparkles", Sparkles);
    ("N", LetterN); ("M", LetterM); ("Clock", Clock); ("Pause", Pause);
    ("A", LetterA); ("Scale", Scale) ].

(** [iconMap] is an object literal, so a lookup by a key that is not one of
    its own properties goes on to [Object.prototype]. *)
Definition objectPrototypeKeys : list string :=
  [ "constructor"; "hasOwnProperty"; "isPrototypeOf"; "propertyIsEnumerable";
    "toLocaleString"; "toString"; "valueOf"; "__proto__";
    "__defineGetter__"; "__defineSetter__"; "__lookupGetter__"; "__lookupSetter__" ].

Inductive IconValue :=
| Component (g : Glyph)        (* an own property of the table *)
| Inherited (name : string)    (* a member of Object.prototype *)
| Undefined.

Definition iconMap (key : string) : IconValue :=
  match find (fun entry => fst entry =? key) iconTable with
  | Some (_, g) => Component g
  | None =>
      if existsb (String.eqb key) objectPrototypeKeys then Inherited key
      else Undefined
  end.

Inductive IconElement :=
| GlyphElement (g : Glyph) (className : string)
| ForeignElement (name : string) (className : string).

(** [Icon && <Icon className=... />]: every value but [undefined] is truthy
    here. *)
Definition guardedIcon (Icon : IconValue) (className : string) : Jsx IconElement :=
  match Icon with
  | Undefined => JsxUndefined
  | Component g => JsxElement (GlyphElement g className)
  | Inherited name => JsxElement (ForeignElement name className)
  end.

(** The icon of a chapter button in the sidebar. *)
Definition sidebarIcon (chapter : Chapter) : Jsx IconElement :=
  let Icon := iconMap (icon chapter) in
  guardedIcon Icon "h-5 w-5".

(** The icon of a chapter card on the home page. *)
Definition cardIcon (chapter : Chapter) : Jsx IconElement :=
  let Icon := iconMap (icon chapter) in
  guardedIcon Icon "h-6 w-6 text-green-700 dark:text-green-300".

(** ** Section detail: paragraphs and notes *)

Record NoteBox := mkNoteBox {
  badge : nat;             (* the number shown in the badge: [index + 1] *)
  note_text : string
}.

(** [notes && notes.length > 0 && (<div> ... notes.map(...) ... </div>)]. *)
Definition notesBlock (sec : Sect) : Jsx (list NoteBox) :=
  match notes sec with
  | None => JsxUndefined
  | Some ns =>
      if (0 <? length ns)%nat
      then JsxElement (arrayMap (fun note index => mkNoteBox (index + 1)%nat note) ns)
      else JsxFalse
  end.

Record DetailPage := mkDetailPage {
  breadcrumb : string;            (* the button back to the chapter *)
  heading : string;
  subheading : string;
  paragraphs : list string;
  notesPart : option (list NoteBox)
}.

Definition sectionDetailPage (ch : Chapter) (sec : Sect) : DetailPage :=
  {| breadcrumb := title ch;
     heading := sec_title sec;
     subheading := sec_subtitle sec;
     paragraphs := arrayMap (fun paragraph _ => paragraph) (content sec);
     notesPart := rendered (notesBlock sec) |}.

(** ** The controls of the rendered page

    The handlers attached by one render.  The links to ["/"] belong to the
    router, not to the component state, and elements kept on screen by an
    exit animation are not part of the render. *)

(** The dark overlay behind the sidebar: [isSidebarOpen && isMobile]. *)
Definition overlayShown (isMobile : bool) (st : State) : bool :=
  isSidebarOpen isMobile st && isMobile.

(** One chapter button of the sidebar; the green background and the chevron
    are both decided by [selectedChapter === chapter.id]. *)
Record SidebarButton := mkSidebarButton {
  button_chapter : Chapter;
  button_icon : Jsx IconElement;
  highlighted : bool;
  chevron : bool
}.

Definition sidebarButtons (fc : FiqhContent) (st : State) : list SidebarButton :=
  map (fun chapter =>
         {| button_chapter := chapter;
            button_icon := sidebarIcon chapter;
            highlighted := strictEq (id chapter) (selectedChapter st);
            chevron := strictEq (id chapter) (selectedChapter st) |})
      (sortedChapters fc).

(** [isSidebarOpen && <aside> ... </aside>]. *)
Definition sidebar (fc : FiqhContent) (isMobile : bool) (st : State)
  : option (list SidebarButton) :=
  if isSidebarOpen isMobile st then Some (sidebarButtons fc st) else None.

Definition chapterClicks (chs : list Chapter) : list Event :=
  map (fun chapter => ChapterClick (id chapter)) chs.

Definition sectionClicks (secs : list Sect) : list Event :=
  map (fun section => SectionClick (sec_id section)) secs.

(** Every click the page can answer in state [st]: the header button, the
    overlay, the close button and the chapter buttons of the sidebar, and the
    cards or the breadcrumb of the main area. *)
Definition offered (fc : FiqhContent) (isMobile : bool) (st : State) : list Event :=
  ToggleSidebar
    :: (if overlayShown isMobile st then [SetSidebar false] else [])
    ++ (if isSidebarOpen isMobile st
        then SetSidebar false :: chapterClicks (sortedChapters fc)
        else [])
    ++ match mainView fc st with
       | ChapterList chs => chapterClicks chs
       | SectionList ch => sectionClicks (sections ch)
       | SectionDetail _ _ => [BackToChapters]
       | Blank => []
       end.

(** The events of the main area that stay inside a chapter. *)
Definition isSectionEvent (e : Event) : bool :=
  match e with
  | SectionClick _ | BackToChapters => true
  | _ => false
  end.

(** The states a user can bring the page to. *)
Inductive uiReachable (fc : FiqhContent) : State -> Prop :=
| ui_init : uiReachable fc initialState
| ui_step (isMobile : bool) (st : State) (e : Event) :
    uiReachable fc st -> In e (offered fc isMobile st) ->
    uiReachable fc (step isMobile st e).

Definition isSome {A : Type} (x : option A) : bool :=
  match x with Some _ => true | None => false end.

(** The selection points into the store: a chosen chapter is found, and a
    chosen section is found in it. *)
Definition selectionResolves (fc : FiqhContent) (st : State) : bool :=
  match selectedChapter st, selectedSection st with
  | None, None => true
  | None, Some _ => false
  | Some _, None => isSome (selectedChapterData fc st)
  | Some _, Some _ => isSome (selectedChapterData fc st) && isSome (selectedSectionData fc st)
  end.

(** ** A small content document used in the examples *)

Definition secIntro : Sect :=
  mkSect "what-is-tajweed" "Tajweed kya hai" "What is Tajweed?"
         ["first paragraph"; "second paragraph"]
         (Some ["first note"; "second note"; "third note"]).

Definition secNoNotes : Sect :=
  mkSect "importance" "Ahmiyat" "Importance" ["only paragraph"] None.

Definition secEmptyNotes : Sect :=
  mkSect "importance" "Ahmiyat" "Importance" ["only paragraph"] (Some []).

Definition chIntro : Chapter :=
  mkChapter "introduction" "Taaruf" "Introduction" "BookOpen" 2 [secIntro; secNoNotes].

Definition chMakharij : Chapter :=
  mkChapter "makharij" "Makharij" "Articulation Points" "MapPin" 1 [secEmptyNotes].

Definition chWaqf : Chapter :=
  mkChapter "waqf" "Waqf" "Stopping" "Star" 2 [].

Definition sampleContent : FiqhContent :=
  mkContent (mkMeta "Tajweed" "Tajweed-ul-Quran" "Rules of recitation")
            [chIntro; chMakharij; chWaqf].

Definition staleChapterState : State :=
  {| selectedChapter := Some "removed-chapter"; selectedSection := None; sidebarOpen := true |}.

Definition staleSectionState : State :=
  {| selectedChapter := Some "introduction";
     selectedSection := Some "removed-section";
     sidebarOpen := true |}.

(** A second chapter carrying the id of [chIntro]. *)
Definition chShadowed : Chapter :=
  mkChapter "introduction" "Doosra" "Second introduction" "Clock" 5 [].

Definition duplicateIdContent : FiqhContent :=
  mkContent (mkMeta "Tajweed" "Tajweed-ul-Quran" "Rules of recitation")
            [chIntro; chShadowed].

(** * Properties *)

(** ** Navigation state *)

Lemma truthy_Some (s : string) : truthy (Some s) = negb (s =? "").
Proof. reflexivity. Qed.

(** C5: [selectChapter(chapterId)] stores [chapterId] as the selected chapter
    and clears the selected section whatever the state before; on a narrow
    viewport it also closes the sidebar flag, on a wide one the flag keeps its
    value. *)
Theorem handleChapterClick_effect :
  forall (isMobile : bool) (st : State) (chapterId : string),
    selectedChapter (step isMobile st (ChapterClick chapterId)) = Some chapterId /\
    selectedSection (step isMobile st (ChapterClick chapterId)) = None /\
    sidebarOpen (step true st (ChapterClick chapterId)) = false /\
    sidebarOpen (step false st (ChapterClick chapterId)) = sidebarOpen st.
Proof.
  intros isMobile st chapterId. simpl. repeat split.
Qed.

(** C7: [backToSections()] clears the selected section and leaves the
    selected chapter and the sidebar flag as they were; on a state whose
    section is already none it changes nothing at all. *)
Theorem handleBackToChapters_frame :
  forall (isMobile : bool) (st : State),
    selectedSection (step isMobile st BackToChapters) = None /\
    selectedChapter (step isMobile st BackToChapters) = selectedChapter st /\
    sidebarOpen (step isMobile st BackToChapters) = sidebarOpen st /\
    (forall (ch : Nullable) (open : bool),
        step isMobile (mkState ch None open) BackToChapters = mkState ch None open).
Proof.
  intros isMobile st. simpl. repeat split.
Qed.

Lemma step_preserves_invariant (isMobile : bool) (st : State) (e : Event) :
  (selectedSection st <> None -> selectedChapter st <> None) ->
  precondition st e = true ->
  selectedSection (step isMobile st e) <> None ->
  selectedChapter (step isMobile st e) <> None.
Proof.
  intros Hinv Hpre.
  destruct e as [c|s| | |b]; simpl in *.
  - intros _. discriminate.
  - intros _. destruct (selectedChapter st); [discriminate|discriminate Hpre].
  - intros H. now contradiction H.
  - exact Hinv.
  - exact Hinv.
Qed.

(** C6: in every state reached from the initial one by the operations
    (select chapter, select section under its precondition, back, sidebar
    toggle or set), a selected section comes with a selected chapter. *)
Theorem section_selected_implies_chapter_selected :
  forall st : State,
    reachable st ->
    selectedSection st <> None -> selectedChapter st <> None.
Proof.
  intros st Hreach.
  induction Hreach as [|isMobile st e _ IH Hpre].
  - simpl. intros H. now contradiction H.
  - now apply step_preserves_invariant.
Qed.

Lemma section_selected_implies_chapter_selected_witness :
  let st := step false (step true initialState (ChapterClick "introduction"))
                 (SectionClick "what-is-tajweed") in
  reachable st /\ selectedSection st <> None /\ selectedChapter st <> None.
Proof.
  assert (Hr : reachable (step false (step true initialState (ChapterClick "introduction"))
                               (SectionClick "what-is-tajweed"))).
  { apply reach_step; [apply reach_step; [apply reach_init|reflexivity]|reflexivity]. }
  assert (Hs : selectedSection (step false (step true initialState (ChapterClick "introduction"))
                                     (SectionClick "what-is-tajweed")) <> None).
  { simpl. discriminate. }
  split; [exact Hr|]. split; [exact Hs|].
  exact (section_selected_implies_chapter_selected _ Hr Hs).
Defined.

(** Without the precondition the handler itself does not keep the invariant:
    it stores the section id whatever the chapter cell holds. *)
Example handleSectionClick_unguarded :
  selectedSection (step false initialState (SectionClick "what-is-tajweed")) = Some "what-is-tajweed" /\
  selectedChapter (step false initialState (SectionClick "what-is-tajweed")) = None.
Proof. split; reflexivity. Qed.

(** ** Sidebar on a narrow viewport *)

Definition isSidebarEvent (e : Event) : bool :=
  match e with
  | ToggleSidebar | SetSidebar _ => true
  | _ => false
  end.

Lemma isSidebarOpen_mobile_selected (st : State) :
  truthy (selectedChapter st) = true -> isSidebarOpen true st = false.
Proof.
  intros H. unfold isSidebarOpen, sidebarShouldBeOpen.
  rewrite H. destruct (sidebarOpen st); reflexivity.
Qed.

Lemma sidebar_event_keeps_selection (isMobile : bool) (st : State) (e : Event) :
  isSidebarEvent e = true ->
  selectedChapter (step isMobile st e) = selectedChapter st /\
  selectedSection (step isMobile st e) = selectedSection st.
Proof.
  destruct e; simpl; try discriminate; intros _; split; reflexivity.
Qed.

Lemma sidebar_events_keep_chapter (st : State) (evs : list Event) :
  forallb isSidebarEvent evs = true ->
  selectedChapter (run st (map (pair true) evs)) = selectedChapter st.
Proof.
  revert st. induction evs as [|e evs IH]; intros st; simpl.
  - reflexivity.
  - intros H. apply andb_prop in H. destruct H as [He Hevs].
    rewrite (IH _ Hevs).
    now apply sidebar_event_keeps_selection.
Qed.

(** C10: on a narrow viewport, in every state whose chapter cell is set (the
    test the component applies: a truthy [selectedChapter]), the sidebar
    visibility that is rendered is false whatever the stored flag holds; and
    after any sequence of sidebar toggles and sets on that viewport the
    chapter is still selected and the sidebar still not shown. *)
Theorem mobile_sidebar_hidden_while_chapter_selected :
  forall st : State,
    truthy (selectedChapter st) = true ->
    isSidebarOpen true st = false /\
    isSidebarOpen true (setSidebarOpen true st) = false /\
    forall evs : list Event,
      forallb isSidebarEvent evs = true ->
      selectedChapter (run st (map (pair true) evs)) = selectedChapter st /\
      isSidebarOpen true (run st (map (pair true) evs)) = false.
Proof.
  intros st Hsel. split; [|split].
  - now apply isSidebarOpen_mobile_selected.
  - now apply isSidebarOpen_mobile_selected.
  - intros evs Hevs.
    pose proof (sidebar_events_keep_chapter st evs Hevs) as Hkeep.
    split; [exact Hkeep|].
    apply isSidebarOpen_mobile_selected. now rewrite Hkeep.
Qed.

Lemma mobile_sidebar_hidden_while_chapter_selected_witness :
  let st := handleChapterClick true "introduction" initialState in
  truthy (selectedChapter st) = true /\
  isSidebarOpen true st = false /\
  isSidebarOpen true (run st [(true, ToggleSidebar); (true, ToggleSidebar); (true, ToggleSidebar)]) = false.
Proof.
  pose (st := handleChapterClick true "introduction" initialState).
  assert (Hsel : truthy (selectedChapter st) = true) by reflexivity.
  destruct (mobile_sidebar_hidden_while_chapter_selected st Hsel) as [Hnow [_ Hlater]].
  split; [exact Hsel|]. split; [exact Hnow|].
  exact (proj2 (Hlater [ToggleSidebar; ToggleSidebar; ToggleSidebar] eq_refl)).
Defined.

(** The toggle does flip the stored flag there; only the derived value stays
    false. *)
Example toggle_on_mobile_sets_flag :
  sidebarOpen (toggleSidebar true (handleChapterClick true "introduction" initialState)) = true /\
  isSidebarOpen true (toggleSidebar true (handleChapterClick true "introduction" initialState)) = false.
Proof. split; reflexivity. Qed.

(** An empty string in the chapter cell is the one value that is set and
    yet not a selection for the component: the home page is shown and the
    sidebar is not closed. *)
Example empty_chapter_id_is_no_selection :
  truthy (Some "") = false /\
  isSidebarOpen true (mkState (Some "") None true) = true /\
  mainView sampleContent (mkState (Some "") None true)
  = ChapterList (sortedChapters sampleContent).
Proof. repeat split. Qed.

(** ** View resolution *)

(** The walk of the documentation: home page, a chapter, one of its
    sections, and back to the chapter. *)
Example walk_home :
  mainView sampleContent initialState = ChapterList [chMakharij; chIntro; chWaqf].
Proof. reflexivity. Qed.

Example walk_chapter :
  mainView sampleContent (run initialState [(false, ChapterClick "introduction")])
  = SectionList chIntro.
Proof. reflexivity. Qed.

Example walk_section :
  mainView sampleContent
           (run initialState [(false, ChapterClick "introduction");
                              (false, SectionClick "what-is-tajweed")])
  = SectionDetail chIntro secIntro.
Proof. reflexivity. Qed.

Example walk_back :
  mainView sampleContent
           (run initialState [(false, ChapterClick "introduction");
                              (false, SectionClick "what-is-tajweed");
                              (false, BackToChapters)])
  = SectionList chIntro.
Proof. reflexivity. Qed.

Lemma mainView_falsy_chapter (fc : FiqhContent) (st : State) :
  truthy (selectedChapter st) = false ->
  mainView fc st = ChapterList (sortedChapters fc).
Proof. intros H. unfold mainView. now rewrite H. Qed.

Lemma mainView_section_detail (fc : FiqhContent) (st : State) (ch : Chapter) (sec : Sect) :
  truthy (selectedChapter st) = true ->
  truthy (selectedSection st) = true ->
  selectedChapterData fc st = Some ch ->
  selectedSectionData fc st = Some sec ->
  mainView fc st = SectionDetail ch sec.
Proof.
  intros Hc Hs Hch Hsec. unfold mainView.
  rewrite Hc, Hs, Hch, Hsec. reflexivity.
Qed.

(** C1, as the component resolves it: when the selected chapter id is set and
    its lookup finds nothing, no error is raised, and the main area is the
    chapter list only for the empty id (which the component treats as no
    selection); for every other id the conditional chain ends in [null] and
    the main area is blank. *)
Theorem stale_chapter_view :
  forall (fc : FiqhContent) (st : State) (c : string),
    selectedChapter st = Some c ->
    selectedChapterData fc st = None ->
    mainView fc st = if c =? "" then ChapterList (sortedChapters fc) else Blank.
Proof.
  intros fc st c Hsel Hdata. unfold mainView, selectedSectionData.
  rewrite Hdata, Hsel, truthy_Some.
  destruct (c =? ""); reflexivity.
Qed.

Lemma stale_chapter_view_witness :
  selectedChapter staleChapterState = Some "removed-chapter" /\
  selectedChapterData sampleContent staleChapterState = None /\
  mainView sampleContent staleChapterState = Blank.
Proof.
  split; [reflexivity|]. split; [reflexivity|].
  exact (stale_chapter_view sampleContent staleChapterState "removed-chapter" eq_refl eq_refl).
Defined.

(** C1 as stated fails: a selected id that the store does not know gives a
    blank main area, not the chapter list. *)
Lemma stale_chapter_not_chapter_list :
  selectedChapter staleChapterState = Some "removed-chapter" /\
  selectedChapterData sampleContent staleChapterState = None /\
  mainView sampleContent staleChapterState <> ChapterList (sortedChapters sampleContent).
Proof.
  split; [reflexivity|]. split; [reflexivity|].
  vm_compute. discriminate.
Qed.

(** C2, as the component resolves it: when the chapter (of non-empty id)
    resolves and the selected section id is set but is not the id of one of
    its sections, no error is raised, and the main area is the section list
    of that chapter only for the empty section id; for every other id the
    conditional chain ends in [null] and the main area is blank. *)
Theorem stale_section_view :
  forall (fc : FiqhContent) (st : State) (c s : string) (ch : Chapter),
    selectedChapter st = Some c -> c <> "" ->
    selectedChapterData fc st = Some ch ->
    selectedSection st = Some s ->
    selectedSectionData fc st = None ->
    mainView fc st = if s =? "" then SectionList ch else Blank.
Proof.
  intros fc st c s ch Hc Hne Hch Hs Hsec. unfold mainView.
  rewrite Hc, Hs, Hch, Hsec, !truthy_Some.
  apply String.eqb_neq in Hne. rewrite Hne. simpl.
  destruct (s =? ""); reflexivity.
Qed.

Lemma stale_section_view_witness :
  selectedChapterData sampleContent staleSectionState = Some chIntro /\
  selectedSectionData sampleContent staleSectionState = None /\
  mainView sampleContent staleSectionState = Blank.
Proof.
  split; [reflexivity|]. split; [reflexivity|].
  refine (stale_section_view sampleContent staleSectionState
            "introduction" "removed-section" chIntro eq_refl _ eq_refl eq_refl eq_refl).
  discriminate.
Defined.

(** C2 as stated fails: a chapter that resolves with a section id that does
    not gives a blank main area, not the section list. *)
Lemma stale_section_not_section_list :
  selectedChapterData sampleContent staleSectionState = Some chIntro /\
  selectedSection staleSectionState = Some "removed-section" /\
  selectedSectionData sampleContent staleSectionState = None /\
  mainView sampleContent staleSectionState <> SectionList chIntro.
Proof.
  split; [reflexivity|]. split; [reflexivity|]. split; [reflexivity|].
  vm_compute. discriminate.
Qed.

(** ** Re-entering a section *)

Lemma reenter_section_same_state (st0 : State) (m1 m2 m3 m4 : bool) (X Y : string) :
  run (run st0 [(m1, ChapterClick X); (m2, SectionClick Y)])
      [(m3, BackToChapters); (m4, SectionClick Y)]
  = run st0 [(m1, ChapterClick X); (m2, SectionClick Y)].
Proof. reflexivity. Qed.

(** C8: for a chapter id [X] and a section id [Y] that resolve in the store,
    [selectChapter(X); selectSection(Y); backToSections(); selectSection(Y)]
    ends in the state reached after the first [selectSection(Y)], so the
    chapter and the section looked up, the view and the page drawn from them
    (content and notes) are the same; for non-empty ids that view is the
    section detail of that chapter and section. *)
Theorem reenter_section_same_data :
  forall (fc : FiqhContent) (st0 : State) (m1 m2 m3 m4 : bool)
         (X Y : string) (ch : Chapter) (sec : Sect),
    find (fun c => strictEq (id c) (Some X)) (chapters fc) = Some ch ->
    find (fun s => strictEq (sec_id s) (Some Y)) (sections ch) = Some sec ->
    let first := run st0 [(m1, ChapterClick X); (m2, SectionClick Y)] in
    let again := run first [(m3, BackToChapters); (m4, SectionClick Y)] in
    again = first /\
    selectedChapterData fc first = Some ch /\
    selectedSectionData fc first = Some sec /\
    selectedChapterData fc again = Some ch /\
    selectedSectionData fc again = Some sec /\
    mainView fc again = mainView fc first /\
    (X <> "" -> Y <> "" ->
     mainView fc first = SectionDetail ch sec /\
     mainView fc again = SectionDetail ch sec).
Proof.
  intros fc st0 m1 m2 m3 m4 X Y ch sec Hch Hsec first again.
  assert (Hsame : again = first) by apply reenter_section_same_state.
  assert (Hc : selectedChapterData fc first = Some ch) by exact Hch.
  assert (Hs : selectedSectionData fc first = Some sec).
  { unfold selectedSectionData. rewrite Hc. exact Hsec. }
  split; [exact Hsame|].
  rewrite Hsame.
  repeat (split; [assumption || reflexivity|]).
  intros HX HY.
  assert (Hv : mainView fc first = SectionDetail ch sec).
  { apply mainView_section_detail; try assumption.
    - simpl. apply String.eqb_neq in HX. now rewrite HX.
    - simpl. apply String.eqb_neq in HY. now rewrite HY. }
  split; exact Hv.
Qed.

Lemma reenter_section_same_data_witness :
  let first := run initialState
                   [(true, ChapterClick "introduction"); (true, SectionClick "what-is-tajweed")] in
  let again := run first [(true, BackToChapters); (true, SectionClick "what-is-tajweed")] in
  mainView sampleContent first = SectionDetail chIntro secIntro /\
  mainView sampleContent again = SectionDetail chIntro secIntro.
Proof.
  refine (proj2 (proj2 (proj2 (proj2 (proj2 (proj2
            (reenter_section_same_data sampleContent initialState true true true true
               "introduction" "what-is-tajweed" chIntro secIntro eq_refl eq_refl)))))) _ _);
    discriminate.
Defined.

(** ** Icons *)

Lemma find_key_absent {V : Type} (key : string) (table : list (string * V)) :
  ~ In key (map fst table) ->
  find (fun entry => fst entry =? key) table = None.
Proof.
  induction table as [|[k v] table IH]; simpl; intros Hnot.
  - reflexivity.
  - destruct (String.eqb_spec k key) as [->|Hneq].
    + exfalso. apply Hnot. now left.
    + apply IH. intros Hin. apply Hnot. now right.
Qed.

Lemma existsb_eqb_absent (key : string) (keys : list string) :
  ~ In key keys -> existsb (String.eqb key) keys = false.
Proof.
  induction keys as [|k keys IH]; simpl; intros Hnot.
  - reflexivity.
  - destruct (String.eqb_spec key k) as [->|Hneq].
    + exfalso. apply Hnot. now left.
    + apply IH. intros Hin. apply Hnot. now right.
Qed.

Lemma iconMap_own (key : string) (g : Glyph) :
  In (key, g) iconTable -> iconMap key = Component g.
Proof.
  unfold iconTable. simpl.
  intros H.
  repeat (destruct H as [H|H]; [injection H as <- <-; reflexivity|]).
  contradiction.
Qed.

Lemma iconMap_unknown (key : string) :
  ~ In key (map fst iconTable) -> ~ In key objectPrototypeKeys ->
  iconMap key = Undefined.
Proof.
  intros Hown Hproto. unfold iconMap.
  rewrite (find_key_absent key iconTable Hown).
  now rewrite (existsb_eqb_absent key objectPrototypeKeys Hproto).
Qed.

(** C3, as the component does it: the table answers for its nine names, each
    with its own glyph; for a key that is neither one of them nor a member
    name of [Object.prototype] the lookup is [undefined], the guard
    [Icon && ...] then renders no icon at all (in the sidebar and on the home
    card), and nothing is raised.  There is no fallback glyph. *)
Theorem iconMap_lookup :
  forall chapter : Chapter,
    (forall g : Glyph,
        In (icon chapter, g) iconTable ->
        iconMap (icon chapter) = Component g /\
        rendered (sidebarIcon chapter) = Some (GlyphElement g "h-5 w-5") /\
        rendered (cardIcon chapter)
          = Some (GlyphElement g "h-6 w-6 text-green-700 dark:text-green-300")) /\
    (~ In (icon chapter) (map fst iconTable) ->
     ~ In (icon chapter) objectPrototypeKeys ->
     iconMap (icon chapter) = Undefined /\
     rendered (sidebarIcon chapter) = None /\
     rendered (cardIcon chapter) = None).
Proof.
  intros chapter. split.
  - intros g Hin. unfold sidebarIcon, cardIcon.
    rewrite (iconMap_own _ _ Hin). repeat split.
  - intros Hown Hproto. unfold sidebarIcon, cardIcon.
    rewrite (iconMap_unknown _ Hown Hproto). repeat split.
Qed.

Lemma iconMap_lookup_witness :
  rendered (sidebarIcon chIntro) = Some (GlyphElement BookOpen "h-5 w-5") /\
  iconMap (icon chWaqf) = Undefined /\
  rendered (sidebarIcon chWaqf) = None /\
  rendered (cardIcon chWaqf) = None.
Proof.
  split.
  - refine (proj1 (proj2 (proj1 (iconMap_lookup chIntro) BookOpen _))).
    simpl. now left.
  - refine (proj2 (iconMap_lookup chWaqf) _ _).
    + simpl. intros H.
      repeat (destruct H as [H|H]; [discriminate H|]). exact H.
    + simpl. intros H.
      repeat (destruct H as [H|H]; [discriminate H|]). exact H.
Defined.

(** C3 as stated fails: a chapter whose icon key is outside the table gets
    no glyph, in the sidebar as on the home card. *)
Lemma unknown_icon_renders_nothing :
  iconMap (icon chWaqf) = Undefined /\
  ~ (exists e : IconElement, rendered (sidebarIcon chWaqf) = Some e) /\
  ~ (exists e : IconElement, rendered (cardIcon chWaqf) = Some e).
Proof.
  split; [reflexivity|].
  split; intros [e He]; vm_compute in He; discriminate He.
Qed.

(** ** Notes *)

Lemma mapFrom_note_text (index : nat) (ns : list string) :
  map note_text (mapFrom (fun note i => mkNoteBox (i + 1) note) index ns) = ns.
Proof.
  revert index. induction ns as [|n ns IH]; intros index; simpl.
  - reflexivity.
  - now rewrite IH.
Qed.

Lemma mapFrom_badge (index : nat) (ns : list string) :
  map badge (mapFrom (fun note i => mkNoteBox (i + 1) note) index ns)
  = seq (index + 1) (length ns).
Proof.
  revert index. induction ns as [|n ns IH]; intros index; simpl.
  - reflexivity.
  - rewrite IH. f_equal.
Qed.

Lemma notesBlock_nothing (sec : Sect) :
  rendered (notesBlock sec) = None <-> notes sec = None \/ notes sec = Some [].
Proof.
  unfold notesBlock. destruct (notes sec) as [[|n ns]|]; simpl; split.
  - intros _. now right.
  - reflexivity.
  - discriminate.
  - intros [H|H]; discriminate H.
  - intros _. now left.
  - reflexivity.
Qed.

(** C9: in the section detail the notes block is rendered exactly when the
    notes are present and non-empty; it then has one box per note, in the
    order of the notes, numbered 1, 2, 3, ...; and a section without a notes
    member gives the same page as that section with an empty notes list. *)
Theorem notesBlock_rendering :
  forall sec : Sect,
    (rendered (notesBlock sec) = None <-> notes sec = None \/ notes sec = Some []) /\
    (forall boxes : list NoteBox,
        rendered (notesBlock sec) = Some boxes ->
        exists ns : list string,
          notes sec = Some ns /\ ns <> [] /\
          map note_text boxes = ns /\
          map badge boxes = seq 1 (length ns)) /\
    (forall ns : list string,
        notes sec = Some ns -> ns <> [] ->
        exists boxes : list NoteBox, rendered (notesBlock sec) = Some boxes) /\
    (forall ch : Chapter,
        sectionDetailPage ch
          (mkSect (sec_id sec) (sec_title sec) (sec_subtitle sec) (content sec) None)
        = sectionDetailPage ch
            (mkSect (sec_id sec) (sec_title sec) (sec_subtitle sec) (content sec) (Some []))).
Proof.
  intros sec. split; [apply notesBlock_nothing|]. split; [|split].
  - intros boxes. unfold notesBlock.
    destruct (notes sec) as [[|n ns]|]; simpl; try discriminate.
    intros H. injection H as <-.
    exists (n :: ns). split; [reflexivity|]. split; [discriminate|].
    unfold arrayMap. split.
    + apply (mapFrom_note_text 0 (n :: ns)).
    + apply (mapFrom_badge 0 (n :: ns)).
  - intros ns Hns Hne. unfold notesBlock. rewrite Hns.
    destruct ns as [|n ns]; [now contradiction Hne|].
    simpl. eexists. reflexivity.
  - intros ch. reflexivity.
Qed.

Lemma notesBlock_rendering_witness :
  rendered (notesBlock secIntro)
  = Some [mkNoteBox 1 "first note"; mkNoteBox 2 "second note"; mkNoteBox 3 "third note"] /\
  (exists ns : list string,
      notes secIntro = Some ns /\ ns <> [] /\
      map note_text
          [mkNoteBox 1 "first note"; mkNoteBox 2 "second note"; mkNoteBox 3 "third note"] = ns /\
      map badge
          [mkNoteBox 1 "first note"; mkNoteBox 2 "second note"; mkNoteBox 3 "third note"]
      = seq 1 (length ns)) /\
  rendered (notesBlock secNoNotes) = None /\
  rendered (notesBlock secEmptyNotes) = None.
Proof.
  split; [reflexivity|]. split; [|split].
  - exact (proj1 (proj2 (notesBlock_rendering secIntro)) _ eq_refl).
  - apply (proj1 (notesBlock_rendering secNoNotes)). now left.
  - apply (proj1 (notesBlock_rendering secEmptyNotes)). now right.
Defined.

(** ** Sorted chapters *)

Lemma insertSorted_perm {T : Type} (cmp : T -> T -> Z) (x : T) (l : list T) :
  Permutation (x :: l) (insertSorted cmp x l).
Proof.
  induction l as [|y l IH]; simpl.
  - apply Permutation_refl.
  - destruct (0 <? cmp x y)%Z.
    + eapply perm_trans; [apply perm_swap|]. now apply perm_skip.
    + apply Permutation_refl.
Qed.

Lemma arraySort_perm {T : Type} (cmp : T -> T -> Z) (l : list T) :
  Permutation l (arraySort cmp l).
Proof.
  induction l as [|x l IH]; simpl.
  - apply perm_nil.
  - eapply perm_trans; [apply perm_skip, IH|]. apply insertSorted_perm.
Qed.

Lemma insertSorted_Forall {T : Type} (cmp : T -> T -> Z) (P : T -> Prop) (x : T) (l : list T) :
  P x -> Forall P l -> Forall P (insertSorted cmp x l).
Proof.
  intros Hx Hl.
  apply (Permutation_Forall (insertSorted_perm cmp x l)).
  now constructor.
Qed.

Lemma insertSorted_sorted (x : Chapter) (l : list Chapter) :
  StronglySorted orderLe l ->
  StronglySorted orderLe (insertSorted compareOrder x l).
Proof.
  induction 1 as [|y l Hsorted IH Hall]; simpl.
  - constructor; constructor.
  - unfold compareOrder at 1.
    destruct (Z.ltb_spec 0 (order x - order y)) as [Hlt|Hge].
    + constructor; [exact IH|].
      apply insertSorted_Forall; [unfold orderLe; lia|exact Hall].
    + constructor; [now constructor|].
      constructor; [unfold orderLe; lia|].
      eapply Forall_impl; [|exact Hall].
      unfold orderLe. intros c Hc. lia.
Qed.

Lemma arraySort_sorted (l : list Chapter) :
  StronglySorted orderLe (arraySort compareOrder l).
Proof.
  induction l as [|x l IH]; simpl.
  - constructor.
  - now apply insertSorted_sorted.
Qed.

Lemma insertSorted_withOrder (k : Z) (x : Chapter) (l : list Chapter) :
  withOrder k (insertSorted compareOrder x l) = withOrder k (x :: l).
Proof.
  induction l as [|y l IH]; simpl.
  - reflexivity.
  - unfold compareOrder at 1.
    destruct (Z.ltb_spec 0 (order x - order y)) as [Hlt|Hge].
    + simpl. fold (withOrder k (insertSorted compareOrder x l)). rewrite IH.
      simpl.
      destruct (Z.eqb_spec (order y) k) as [Hy|Hy];
        destruct (Z.eqb_spec (order x) k) as [Hx|Hx]; try reflexivity.
      lia.
    + reflexivity.
Qed.

Lemma arraySort_withOrder (k : Z) (l : list Chapter) :
  withOrder k (arraySort compareOrder l) = withOrder k l.
Proof.
  induction l as [|x l IH]; simpl.
  - reflexivity.
  - rewrite insertSorted_withOrder. simpl.
    fold (withOrder k (arraySort compareOrder l)). now rewrite IH.
Qed.

Lemma filter_split {T : Type} (p : T -> bool) (l xs ys : list T) (a : T) :
  filter p l = xs ++ a :: ys ->
  exists l1 l2, l = l1 ++ a :: l2 /\ filter p l1 = xs /\ filter p l2 = ys.
Proof.
  revert xs. induction l as [|y l IH]; intros xs; simpl.
  - intros H. destruct xs; discriminate H.
  - destruct (p y) eqn:Hp.
    + destruct xs as [|x xs]; simpl; intros H; injection H as -> H.
      * exists [], l. repeat split. exact H.
      * destruct (IH _ H) as (l1 & l2 & -> & H1 & H2).
        exists (x :: l1), l2. simpl. rewrite Hp, H1. repeat split. exact H2.
    + intros H. destruct (IH _ H) as (l1 & l2 & -> & H1 & H2).
      exists (y :: l1), l2. simpl. rewrite Hp. repeat split; assumption.
Qed.

Lemma withOrder_head (c : Chapter) (l : list Chapter) :
  withOrder (order c) (c :: l) = c :: withOrder (order c) l.
Proof. unfold withOrder. simpl. now rewrite Z.eqb_refl. Qed.

Lemma withOrder_In (k : Z) (c : Chapter) (l : list Chapter) :
  In c (withOrder k l) <-> In c l /\ order c = k.
Proof.
  unfold withOrder. rewrite filter_In. now rewrite Z.eqb_eq.
Qed.

Lemma sorted_head_le (a c : Chapter) (l : list Chapter) :
  StronglySorted orderLe (a :: l) -> In c (a :: l) -> orderLe a c.
Proof.
  intros Hs Hin. inversion Hs as [|? ? _ Hall]; subst.
  destruct Hin as [<-|Hin].
  - unfold orderLe. lia.
  - rewrite Forall_forall in Hall. now apply Hall.
Qed.

(** Two sorted lists that hold, for every [order] value, the same chapters
    in the same sequence are one list. *)
Lemma sorted_classes_unique (l1 l2 : list Chapter) :
  StronglySorted orderLe l1 -> StronglySorted orderLe l2 ->
  (forall k, withOrder k l1 = withOrder k l2) ->
  l1 = l2.
Proof.
  revert l2. induction l1 as [|a t1 IH]; intros l2 H1 H2 Hcls.
  - destruct l2 as [|b t2]; [reflexivity|].
    specialize (Hcls (order b)). rewrite withOrder_head in Hcls. discriminate Hcls.
  - destruct l2 as [|b t2].
    + specialize (Hcls (order a)). rewrite withOrder_head in Hcls. discriminate Hcls.
    + assert (Hab : order a = order b).
      { assert (Ha : In a (b :: t2)).
        { apply (withOrder_In (order a)). rewrite <- Hcls, withOrder_head. now left. }
        assert (Hb : In b (a :: t1)).
        { apply (withOrder_In (order b)). rewrite Hcls, withOrder_head. now left. }
        pose proof (sorted_head_le _ _ _ H2 Ha) as Hle1.
        pose proof (sorted_head_le _ _ _ H1 Hb) as Hle2.
        unfold orderLe in *. lia. }
      pose proof (Hcls (order a)) as Hk.
      rewrite withOrder_head, Hab, withOrder_head in Hk.
      injection Hk as -> Htail.
      f_equal. apply IH.
      * now inversion H1.
      * now inversion H2.
      * intros k. specialize (Hcls k). unfold withOrder in *. simpl in Hcls.
        destruct (order b =? k)%Z eqn:Hbk.
        -- now injection Hcls.
        -- exact Hcls.
Qed.

(** Whatever stable sorting algorithm the engine runs, its result is the
    list computed by [arraySort]. *)
Lemma stable_sort_unique (l out : list Chapter) :
  StronglySorted orderLe out ->
  (forall k, withOrder k out = withOrder k l) ->
  out = arraySort compareOrder l.
Proof.
  intros Hs Hcls. apply sorted_classes_unique.
  - exact Hs.
  - apply arraySort_sorted.
  - intros k. now rewrite arraySort_withOrder.
Qed.

Lemma renders_repeat (n : nat) (store : list Chapter) :
  renders n store = repeat (arraySort compareOrder store) n.
Proof.
  induction n as [|n IH]; simpl.
  - reflexivity.
  - now rewrite IH.
Qed.

Lemma sortedChapters_keeps_order_of_ties (fc : FiqhContent) (a b : Chapter)
      (l1 l2 l3 : list Chapter) :
  chapters fc = l1 ++ a :: l2 ++ b :: l3 ->
  order a = order b ->
  exists m1 m2 m3, sortedChapters fc = m1 ++ a :: m2 ++ b :: m3.
Proof.
  intros Hin Hab.
  assert (Hcls : withOrder (order a) (sortedChapters fc)
                 = withOrder (order a) (l1 ++ a :: l2 ++ b :: l3)).
  { rewrite <- Hin. apply arraySort_withOrder. }
  unfold withOrder in Hcls.
  rewrite filter_app in Hcls. simpl in Hcls.
  rewrite Z.eqb_refl, filter_app in Hcls. simpl in Hcls.
  rewrite <- Hab, Z.eqb_refl in Hcls.
  apply filter_split in Hcls. destruct Hcls as (m1 & m' & Hm & _ & Hrest).
  apply filter_split in Hrest. destruct Hrest as (m2 & m3 & -> & _ & _).
  now exists m1, m2, m3.
Qed.

(** C4: the chapter list that is displayed is a rearrangement of the store's
    chapters, ascending in [order]; the chapters of any one [order] value
    stand in the sequence they have in the store, so of two chapters with
    equal [order] the one that comes first in the store comes first on the
    page; and every render shows this same list, the store being left as it
    is. *)
Theorem sortedChapters_sorted_stable :
  forall fc : FiqhContent,
    Permutation (chapters fc) (sortedChapters fc) /\
    StronglySorted orderLe (sortedChapters fc) /\
    (forall k : Z, withOrder k (sortedChapters fc) = withOrder k (chapters fc)) /\
    (forall (a b : Chapter) (l1 l2 l3 : list Chapter),
        chapters fc = l1 ++ a :: l2 ++ b :: l3 ->
        order a = order b ->
        exists m1 m2 m3, sortedChapters fc = m1 ++ a :: m2 ++ b :: m3) /\
    (forall n : nat, renders n (chapters fc) = repeat (sortedChapters fc) n).
Proof.
  intros fc. unfold sortedChapters at 1 2 3.
  split; [apply arraySort_perm|].
  split; [apply arraySort_sorted|].
  split; [intros k; apply arraySort_withOrder|].
  split; [apply sortedChapters_keeps_order_of_ties|].
  intros n. apply renders_repeat.
Qed.

Lemma sortedChapters_sorted_stable_witness :
  sortedChapters sampleContent = [chMakharij; chIntro; chWaqf] /\
  exists m1 m2 m3, sortedChapters sampleContent = m1 ++ chIntro :: m2 ++ chWaqf :: m3.
Proof.
  split; [reflexivity|].
  exact (proj1 (proj2 (proj2 (proj2 (sortedChapters_sorted_stable sampleContent))))
           chIntro chWaqf [] [chMakharij] [] eq_refl eq_refl).
Defined.

(** The scenario of the documentation: orders 2 and 1 come out as 1, 2. *)
Example sortedChapters_two :
  map id (sortedChapters
            (mkContent (meta sampleContent)
               [mkChapter "c1" "" "" "BookOpen" 2 []; mkChapter "c2" "" "" "BookOpen" 1 []]))
  = ["c2"; "c1"].
Proof. reflexivity. Qed.

(** ** Lookups in the store *)

Lemma find_first_match {A : Type} (p : A -> bool) (l : list A) (x : A) :
  find p l = Some x <->
  exists l1 l2, l = l1 ++ x :: l2 /\ p x = true /\ forall y, In y l1 -> p y = false.
Proof.
  split.
  - induction l as [|a l IH]; simpl; [discriminate|].
    destruct (p a) eqn:Hpa.
    + intros H. injection H as <-. exists [], l. repeat split; [exact Hpa|].
      intros y [].
    + intros H. destruct (IH H) as (l1 & l2 & -> & Hpx & Hl1).
      exists (a :: l1), l2. repeat split; [exact Hpx|].
      intros y [<-|Hy]; [exact Hpa|now apply Hl1].
  - intros (l1 & l2 & -> & Hpx & Hl1).
    induction l1 as [|a l1 IH]; simpl.
    + now rewrite Hpx.
    + rewrite (Hl1 a (or_introl eq_refl)). apply IH.
      intros y Hy. apply Hl1. now right.
Qed.

Lemma find_none_iff {A : Type} (p : A -> bool) (l : list A) :
  find p l = None <-> forall y, In y l -> p y = false.
Proof.
  split.
  - intros H y Hy. now apply (find_none p l H).
  - induction l as [|a l IH]; simpl; [reflexivity|].
    intros H. rewrite (H a (or_introl eq_refl)). apply IH.
    intros y Hy. apply H. now right.
Qed.

Lemma strictEq_true (s : string) (x : Nullable) :
  strictEq s x = true <-> x = Some s.
Proof.
  destruct x as [t|]; simpl.
  - rewrite String.eqb_eq. split; [now intros ->|]. intros H. now injection H.
  - split; discriminate.
Qed.

Lemma strictEq_false (s : string) (x : Nullable) :
  strictEq s x = false <-> x <> Some s.
Proof.
  rewrite <- strictEq_true. destruct (strictEq s x); split; congruence.
Qed.

(** The chapter lookup returns the first chapter of the store, in store
    order, whose id is the selected one, and nothing exactly when no chapter
    has that id; the section lookup does the same inside the chapter found,
    and gives nothing, without failing, when no chapter was found. *)
Theorem lookups_first_match :
  forall (fc : FiqhContent) (st : State),
    (forall ch : Chapter,
        selectedChapterData fc st = Some ch <->
        exists l1 l2,
          chapters fc = l1 ++ ch :: l2 /\
          selectedChapter st = Some (id ch) /\
          forall other, In other l1 -> selectedChapter st <> Some (id other)) /\
    (selectedChapterData fc st = None <->
     forall ch, In ch (chapters fc) -> selectedChapter st <> Some (id ch)) /\
    (selectedChapterData fc st = None -> selectedSectionData fc st = None) /\
    (forall (ch : Chapter) (sec : Sect),
        selectedChapterData fc st = Some ch ->
        (selectedSectionData fc st = Some sec <->
         exists s1 s2,
           sections ch = s1 ++ sec :: s2 /\
           selectedSection st = Some (sec_id sec) /\
           forall other, In other s1 -> selectedSection st <> Some (sec_id other))).
Proof.
  intros fc st. split; [|split; [|split]].
  - intros ch. unfold selectedChapterData. rewrite find_first_match.
    split; intros (l1 & l2 & Hl & Hch & Hl1); exists l1, l2;
      (split; [exact Hl|]); split.
    + now apply strictEq_true.
    + intros other Hin. apply strictEq_false. now apply Hl1.
    + now apply strictEq_true.
    + intros other Hin. apply strictEq_false. now apply Hl1.
  - unfold selectedChapterData. rewrite find_none_iff.
    split; intros H ch Hin; apply strictEq_false; now apply H.
  - intros H. unfold selectedSectionData. now rewrite H.
  - intros ch sec Hch. unfold selectedSectionData. rewrite Hch, find_first_match.
    split; intros (l1 & l2 & Hl & Hs & Hl1); exists l1, l2;
      (split; [exact Hl|]); split.
    + now apply strictEq_true.
    + intros other Hin. apply strictEq_false. now apply Hl1.
    + now apply strictEq_true.
    + intros other Hin. apply strictEq_false. now apply Hl1.
Qed.

Lemma lookups_first_match_witness :
  selectedChapterData duplicateIdContent
    (step false initialState (ChapterClick "introduction")) = Some chIntro /\
  selectedSectionData sampleContent staleChapterState = None.
Proof.
  split.
  - apply (proj1 (lookups_first_match duplicateIdContent
                    (step false initialState (ChapterClick "introduction")))).
    exists [], [chShadowed]. repeat split. intros other [].
  - apply (proj1 (proj2 (proj2 (lookups_first_match sampleContent staleChapterState)))).
    reflexivity.
Defined.

(** ** Clicks and the view they lead to *)

Lemma find_unique_key {A : Type} (key : A -> string) (l : list A) (x : A) :
  NoDup (map key l) -> In x l ->
  find (fun y => key y =? key x) l = Some x.
Proof.
  induction l as [|a l IH]; simpl; [intros _ []|].
  intros Hnd Hin. inversion Hnd as [|? ? Hnotin Hnd']; subst.
  destruct Hin as [->|Hin].
  - now rewrite String.eqb_refl.
  - destruct (String.eqb_spec (key a) (key x)) as [Heq|_].
    + exfalso. apply Hnotin. rewrite Heq. now apply in_map.
    + now apply IH.
Qed.

Lemma mainView_cases (fc : FiqhContent) (st : State) :
  (truthy (selectedChapter st) = false /\
   mainView fc st = ChapterList (sortedChapters fc)) \/
  (truthy (selectedChapter st) = true /\
   exists ch, selectedChapterData fc st = Some ch /\
              truthy (selectedSection st) = false /\
              mainView fc st = SectionList ch) \/
  (truthy (selectedChapter st) = true /\
   exists ch sec, selectedChapterData fc st = Some ch /\
                  selectedSectionData fc st = Some sec /\
                  truthy (selectedSection st) = true /\
                  mainView fc st = SectionDetail ch sec) \/
  (truthy (selectedChapter st) = true /\
   mainView fc st = Blank /\
   (selectedChapterData fc st = None \/
    truthy (selectedSection st) = true /\ selectedSectionData fc st = None)).
Proof.
  unfold mainView.
  destruct (truthy (selectedChapter st)); simpl; [|now left].
  right.
  destruct (selectedChapterData fc st) as [ch|] eqn:Hch.
  - destruct (truthy (selectedSection st)) eqn:Hs.
    + destruct (selectedSectionData fc st) as [sec|] eqn:Hsec.
      * right; left. split; [reflexivity|]. now exists ch, sec.
      * right; right. split; [reflexivity|]. split; [reflexivity|]. now right.
    + left. split; [reflexivity|]. now exists ch.
  - right; right. split; [reflexivity|].
    unfold selectedSectionData. rewrite Hch.
    destruct (truthy (selectedSection st)); split; try reflexivity; now left.
Qed.

Lemma mainView_SectionList_inv (fc : FiqhContent) (st : State) (ch : Chapter) :
  mainView fc st = SectionList ch ->
  truthy (selectedChapter st) = true /\
  selectedChapterData fc st = Some ch /\
  truthy (selectedSection st) = false.
Proof.
  intros H.
  destruct (mainView_cases fc st)
    as [[_ Hv]|[[Ht (ch' & Hch & Hs & Hv)]|[[_ (ch' & sec & _ & _ & _ & Hv)]|[_ [Hv _]]]]];
    rewrite Hv in H; try discriminate H.
  injection H as <-. now repeat split.
Qed.

Lemma mainView_SectionDetail_inv (fc : FiqhContent) (st : State) (ch : Chapter) (sec : Sect) :
  mainView fc st = SectionDetail ch sec ->
  truthy (selectedChapter st) = true /\
  selectedChapterData fc st = Some ch /\
  selectedSectionData fc st = Some sec /\
  truthy (selectedSection st) = true.
Proof.
  intros H.
  destruct (mainView_cases fc st)
    as [[_ Hv]|[[_ (ch' & _ & _ & Hv)]|[[Ht (ch' & sec' & Hch & Hsec & Hs & Hv)]|[_ [Hv _]]]]];
    rewrite Hv in H; try discriminate H.
  injection H as <- <-. now repeat split.
Qed.

Lemma mainView_ChapterList_inv (fc : FiqhContent) (st : State) (chs : list Chapter) :
  mainView fc st = ChapterList chs ->
  truthy (selectedChapter st) = false /\ chs = sortedChapters fc.
Proof.
  intros H.
  destruct (mainView_cases fc st)
    as [[Ht Hv]|[[_ (ch' & _ & _ & Hv)]|[[_ (ch' & sec' & _ & _ & _ & Hv)]|[_ [Hv _]]]]];
    rewrite Hv in H; try discriminate H.
  injection H as <-. now split.
Qed.

(** When the chapter ids of the store are pairwise different, a click on a
    chapter, from any state and on any viewport, shows the section list of
    that very chapter; the one exception is a chapter whose id is the empty
    string, which cannot be opened: the home page stays. *)
Theorem chapter_click_opens_chapter :
  forall (fc : FiqhContent) (isMobile : bool) (st : State) (ch : Chapter),
    NoDup (map id (chapters fc)) ->
    In ch (chapters fc) ->
    mainView fc (step isMobile st (ChapterClick (id ch)))
    = if id ch =? "" then ChapterList (sortedChapters fc) else SectionList ch.
Proof.
  intros fc isMobile st ch Hnd Hin.
  unfold mainView, selectedChapterData. simpl.
  destruct (id ch =? ""); simpl; [reflexivity|].
  now rewrite (find_unique_key id (chapters fc) ch Hnd Hin).
Qed.

Lemma chapter_click_opens_chapter_witness :
  mainView sampleContent (step true staleSectionState (ChapterClick "makharij"))
  = SectionList chMakharij.
Proof.
  refine (chapter_click_opens_chapter sampleContent true staleSectionState chMakharij _ _).
  - simpl. repeat constructor; simpl; intuition discriminate.
  - simpl. now right; left.
Defined.

(** With two chapters of one id the second can never be opened: its card
    leads to the first. *)
Example duplicate_id_opens_first :
  In chShadowed (chapters duplicateIdContent) /\
  mainView duplicateIdContent (step false initialState (ChapterClick (id chShadowed)))
  = SectionList chIntro.
Proof. split; [now right; left|reflexivity]. Qed.

(** In the section list of a chapter whose section ids are pairwise
    different, a click on a section shows the detail of that very section of
    that chapter; a section whose id is the empty string cannot be opened:
    the section list stays. *)
Theorem section_click_opens_section :
  forall (fc : FiqhContent) (isMobile : bool) (st : State) (ch : Chapter) (sec : Sect),
    mainView fc st = SectionList ch ->
    NoDup (map sec_id (sections ch)) ->
    In sec (sections ch) ->
    mainView fc (step isMobile st (SectionClick (sec_id sec)))
    = if sec_id sec =? "" then SectionList ch else SectionDetail ch sec.
Proof.
  intros fc isMobile st ch sec Hview Hnd Hin.
  apply mainView_SectionList_inv in Hview. destruct Hview as (Ht & Hch & _).
  unfold mainView, selectedSectionData.
  change (selectedChapterData fc (step isMobile st (SectionClick (sec_id sec))))
    with (selectedChapterData fc st).
  rewrite Hch. simpl. rewrite Ht. simpl.
  destruct (sec_id sec =? ""); simpl; [reflexivity|].
  now rewrite (find_unique_key sec_id (sections ch) sec Hnd Hin).
Qed.

Lemma section_click_opens_section_witness :
  mainView sampleContent
           (step true (step true initialState (ChapterClick "introduction"))
                 (SectionClick "importance"))
  = SectionDetail chIntro secNoNotes.
Proof.
  refine (section_click_opens_section sampleContent true
            (step true initialState (ChapterClick "introduction")) chIntro secNoNotes
            eq_refl _ _).
  - simpl. repeat constructor; simpl; intuition discriminate.
  - simpl. now right; left.
Defined.

(** From the detail of a section, the breadcrumb button leads to the section
    list of the same chapter. *)
Theorem back_from_detail_shows_section_list :
  forall (fc : FiqhContent) (isMobile : bool) (st : State) (ch : Chapter) (sec : Sect),
    mainView fc st = SectionDetail ch sec ->
    mainView fc (step isMobile st BackToChapters) = SectionList ch.
Proof.
  intros fc isMobile st ch sec Hview.
  apply mainView_SectionDetail_inv in Hview. destruct Hview as (Ht & Hch & _ & _).
  unfold mainView.
  change (selectedChapterData fc (step isMobile st BackToChapters))
    with (selectedChapterData fc st).
  rewrite Hch. simpl. now rewrite Ht.
Qed.

Lemma back_from_detail_shows_section_list_witness :
  mainView sampleContent
    (step false (run initialState [(false, ChapterClick "introduction");
                                   (false, SectionClick "what-is-tajweed")])
          BackToChapters)
  = SectionList chIntro.
Proof.
  exact (back_from_detail_shows_section_list sampleContent false
           (run initialState [(false, ChapterClick "introduction");
                              (false, SectionClick "what-is-tajweed")])
           chIntro secIntro eq_refl).
Defined.

(** ** What the page offers *)

Lemma In_sortedChapters (fc : FiqhContent) (ch : Chapter) :
  In ch (sortedChapters fc) <-> In ch (chapters fc).
Proof.
  unfold sortedChapters. split; apply Permutation_in.
  - apply Permutation_sym, arraySort_perm.
  - apply arraySort_perm.
Qed.

Lemma offered_inv (fc : FiqhContent) (isMobile : bool) (st : State) (e : Event) :
  In e (offered fc isMobile st) ->
  e = ToggleSidebar \/
  (e = SetSidebar false /\ isSidebarOpen isMobile st = true) \/
  (exists ch, In ch (chapters fc) /\ e = ChapterClick (id ch) /\
              (isSidebarOpen isMobile st = true \/ truthy (selectedChapter st) = false)) \/
  (exists ch sec, mainView fc st = SectionList ch /\ In sec (sections ch) /\
                  e = SectionClick (sec_id sec)) \/
  (e = BackToChapters /\ exists ch sec, mainView fc st = SectionDetail ch sec).
Proof.
  unfold offered, overlayShown. intros [<-|H]; [now left|]. right.
  apply in_app_or in H. destruct H as [H|H].
  { destruct (isSidebarOpen isMobile st); simpl in H; [|contradiction].
    destruct isMobile; simpl in H; [|contradiction].
    destruct H as [<-|[]]. now left. }
  apply in_app_or in H. destruct H as [H|H].
  { destruct (isSidebarOpen isMobile st); [|contradiction].
    destruct H as [<-|H]; [now left|]. right; left.
    unfold chapterClicks in H. apply in_map_iff in H. destruct H as (ch & <- & Hin).
    exists ch. split; [now apply In_sortedChapters|]. split; [reflexivity|now left]. }
  right.
  destruct (mainView fc st) as [chs|ch|ch sec|] eqn:Hview.
  - left. apply mainView_ChapterList_inv in Hview. destruct Hview as [Ht ->].
    unfold chapterClicks in H. apply in_map_iff in H. destruct H as (ch & <- & Hin).
    exists ch. split; [now apply In_sortedChapters|]. split; [reflexivity|now right].
  - right; left. unfold sectionClicks in H. apply in_map_iff in H.
    destruct H as (sec & <- & Hin). now exists ch, sec.
  - right; right. destruct H as [<-|[]]. split; [reflexivity|]. now exists ch, sec.
  - contradiction.
Qed.

Lemma truthy_true_Some (x : Nullable) :
  truthy x = true -> exists s, x = Some s /\ s <> "".
Proof.
  destruct x as [s|]; simpl; [|discriminate].
  intros H. exists s. split; [reflexivity|]. intros ->. discriminate H.
Qed.

Lemma offered_precondition (fc : FiqhContent) (isMobile : bool) (st : State) (e : Event) :
  In e (offered fc isMobile st) -> precondition st e = true.
Proof.
  intros H. apply offered_inv in H.
  destruct H as [->|[[-> _]|[(ch & _ & -> & _)|[(ch & sec & Hview & _ & ->)|[-> _]]]]];
    try reflexivity.
  apply mainView_SectionList_inv in Hview. destruct Hview as (Ht & _ & _).
  apply truthy_true_Some in Ht. destruct Ht as (c & Hc & _).
  simpl. now rewrite Hc.
Qed.

(** The page never offers a click outside its precondition: a section card
    exists only in the section list of a chapter that was found.  So every
    state a user can bring the page to is a state of the guarded state
    machine. *)
Theorem page_offers_only_allowed_clicks :
  forall fc : FiqhContent,
    (forall (isMobile : bool) (st : State) (e : Event),
        In e (offered fc isMobile st) -> precondition st e = true) /\
    (forall st : State, uiReachable fc st -> reachable st).
Proof.
  intros fc. split.
  - intros isMobile st e. apply offered_precondition.
  - intros st H. induction H as [|isMobile st e _ IH Hin].
    + apply reach_init.
    + apply reach_step; [exact IH|]. now apply (offered_precondition fc isMobile).
Qed.

Lemma page_offers_only_allowed_clicks_witness :
  reachable (step true (step true initialState (ChapterClick "introduction"))
                  (SectionClick "importance")).
Proof.
  apply (proj2 (page_offers_only_allowed_clicks sampleContent)).
  apply ui_step; [apply ui_step; [apply ui_init|]|].
  - vm_compute. tauto.
  - vm_compute. tauto.
Defined.

Lemma find_isSome {A : Type} (p : A -> bool) (l : list A) (x : A) :
  In x l -> p x = true -> isSome (find p l) = true.
Proof.
  intros Hin Hp. destruct (find p l) eqn:Hf; [reflexivity|].
  rewrite (find_none p l Hf x Hin) in Hp. discriminate Hp.
Qed.

Lemma offered_keeps_resolved (fc : FiqhContent) (isMobile : bool) (st : State) (e : Event) :
  selectionResolves fc st = true ->
  In e (offered fc isMobile st) ->
  selectionResolves fc (step isMobile st e) = true.
Proof.
  intros Hres H. apply offered_inv in H.
  destruct H as [->|[[-> _]|[(ch & Hin & -> & _)|[(ch & sec & Hview & Hin & ->)|[-> _]]]]].
  - exact Hres.
  - exact Hres.
  - unfold selectionResolves, selectedChapterData. simpl.
    apply (find_isSome _ _ ch Hin). apply String.eqb_refl.
  - apply mainView_SectionList_inv in Hview. destruct Hview as (Ht & Hch & _).
    apply truthy_true_Some in Ht. destruct Ht as (c & Hc & _).
    unfold selectionResolves, selectedSectionData.
    change (selectedChapterData fc (step isMobile st (SectionClick (sec_id sec))))
      with (selectedChapterData fc st).
    simpl. rewrite Hc, Hch. simpl.
    apply (find_isSome _ _ sec Hin). apply String.eqb_refl.
  - unfold selectionResolves in *.
    change (selectedChapterData fc (step isMobile st BackToChapters))
      with (selectedChapterData fc st).
    simpl. destruct (selectedChapter st); [|reflexivity].
    destruct (selectedSection st); [|exact Hres].
    apply andb_prop in Hres. exact (proj1 Hres).
Qed.

Lemma resolved_not_blank (fc : FiqhContent) (st : State) :
  selectionResolves fc st = true -> mainView fc st <> Blank.
Proof.
  intros Hres.
  destruct (mainView_cases fc st)
    as [[_ Hv]|[[_ (ch & _ & _ & Hv)]|[[_ (ch & sec & _ & _ & _ & Hv)]|[Ht [_ Hbad]]]]];
    try (rewrite Hv; discriminate).
  exfalso.
  apply truthy_true_Some in Ht. destruct Ht as (c & Hc & _).
  unfold selectionResolves in Hres. rewrite Hc in Hres.
  destruct Hbad as [Hch|[Hs Hsec]].
  - rewrite Hch in Hres. destruct (selectedSection st); discriminate Hres.
  - apply truthy_true_Some in Hs. destruct Hs as (s & Hs & _).
    rewrite Hs, Hsec, andb_false_r in Hres. discriminate Hres.
Qed.

(** Through the clicks the page offers, the selection always points into
    the store (the chosen chapter is found, the chosen section is found in
    it), so the empty branch of the conditional chain is never what a user
    sees. *)
Theorem user_never_sees_blank :
  forall (fc : FiqhContent) (st : State),
    uiReachable fc st ->
    selectionResolves fc st = true /\ mainView fc st <> Blank.
Proof.
  intros fc st H.
  assert (Hres : selectionResolves fc st = true).
  { induction H as [|isMobile st e _ IH Hin].
    - reflexivity.
    - now apply offered_keeps_resolved. }
  split; [exact Hres|now apply resolved_not_blank].
Qed.

Lemma user_never_sees_blank_witness :
  mainView sampleContent
           (step false (step true initialState (ChapterClick "waqf")) ToggleSidebar)
  <> Blank.
Proof.
  refine (proj2 (user_never_sees_blank sampleContent _ _)).
  apply ui_step; [apply ui_step; [apply ui_init|]|].
  - vm_compute. tauto.
  - vm_compute. tauto.
Defined.

(** ** What no click does *)

(** No handler resets the chapter cell: when every chapter of the store has
    a non-empty id, once a chapter is selected no click the page offers, on
    any viewport, brings the home page back. *)
Theorem no_click_returns_home :
  forall (fc : FiqhContent) (isMobile : bool) (st : State) (e : Event),
    (forall ch, In ch (chapters fc) -> id ch <> "") ->
    truthy (selectedChapter st) = true ->
    In e (offered fc isMobile st) ->
    truthy (selectedChapter (step isMobile st e)) = true /\
    forall chs, mainView fc (step isMobile st e) <> ChapterList chs.
Proof.
  intros fc isMobile st e Hids Ht Hin.
  assert (Ht' : truthy (selectedChapter (step isMobile st e)) = true).
  { apply offered_inv in Hin.
    destruct Hin as [->|[[-> _]|[(ch & Hch & -> & _)|[(ch & sec & _ & _ & ->)|[-> _]]]]];
      try exact Ht.
    simpl. apply negb_true_iff, String.eqb_neq. now apply Hids. }
  split; [exact Ht'|].
  intros chs Hview. apply mainView_ChapterList_inv in Hview.
  rewrite (proj1 Hview) in Ht'. discriminate Ht'.
Qed.

Lemma no_click_returns_home_witness :
  mainView sampleContent
           (step false (step false initialState (ChapterClick "introduction"))
                 (ChapterClick "waqf"))
  <> ChapterList (sortedChapters sampleContent).
Proof.
  refine (proj2 (no_click_returns_home sampleContent false
                   (step false initialState (ChapterClick "introduction"))
                   (ChapterClick "waqf") _ eq_refl _) (sortedChapters sampleContent)).
  - simpl. intros ch [<-|[<-|[<-|[]]]]; discriminate.
  - vm_compute. tauto.
Defined.

(** On a narrow viewport, once a chapter is selected, the page offers no
    chapter click at all, and no click it does offer changes the selected
    chapter: the user stays inside that chapter. *)
Theorem mobile_chapter_is_locked :
  forall (fc : FiqhContent) (st : State) (e : Event),
    truthy (selectedChapter st) = true ->
    In e (offered fc true st) ->
    (forall chapterId, e <> ChapterClick chapterId) /\
    selectedChapter (step true st e) = selectedChapter st.
Proof.
  intros fc st e Ht Hin.
  pose proof (isSidebarOpen_mobile_selected st Ht) as Hclosed.
  apply offered_inv in Hin.
  destruct Hin as [->|[[-> _]|[(ch & _ & _ & [Hopen|Hnone])|[(ch & sec & _ & _ & ->)|[-> _]]]]];
    try (split; [intros c; discriminate|reflexivity]).
  - rewrite Hclosed in Hopen. discriminate Hopen.
  - rewrite Ht in Hnone. discriminate Hnone.
Qed.

Lemma mobile_chapter_is_locked_witness :
  selectedChapter
    (step true (step true initialState (ChapterClick "introduction")) ToggleSidebar)
  = Some "introduction".
Proof.
  refine (proj2 (mobile_chapter_is_locked sampleContent
                   (step true initialState (ChapterClick "introduction"))
                   ToggleSidebar eq_refl _)).
  now left.
Defined.

(** On a wide viewport the chapter buttons stay available while the sidebar
    is shown. *)
Example desktop_offers_other_chapter :
  In (ChapterClick "waqf")
     (offered sampleContent false (step false initialState (ChapterClick "introduction"))).
Proof. vm_compute. tauto. Qed.

(** ** The header button *)

(** Where the sidebar may be shown (wide viewport, or no chapter selected)
    the header button flips what is displayed and a second press restores
    the state; where it may not (narrow viewport with a chapter selected) a
    press sets the stored flag and the sidebar stays hidden. *)
Theorem toggleSidebar_effect :
  forall (isMobile : bool) (st : State),
    (sidebarShouldBeOpen isMobile st = true ->
     isSidebarOpen isMobile (step isMobile st ToggleSidebar)
     = negb (isSidebarOpen isMobile st) /\
     step isMobile (step isMobile st ToggleSidebar) ToggleSidebar = st) /\
    (sidebarShouldBeOpen isMobile st = false ->
     sidebarOpen (step isMobile st ToggleSidebar) = true /\
     isSidebarOpen isMobile (step isMobile st ToggleSidebar) = false /\
     step isMobile (step isMobile st ToggleSidebar) ToggleSidebar
     = step isMobile st ToggleSidebar).
Proof.
  intros isMobile [ch sec open].
  unfold step, toggleSidebar, isSidebarOpen, sidebarShouldBeOpen. simpl.
  split; intros H; rewrite H.
  - destruct open; simpl; rewrite ?H; split; reflexivity.
  - destruct open; simpl; rewrite ?H; repeat split; reflexivity.
Qed.

Lemma toggleSidebar_effect_witness :
  isSidebarOpen false (step false initialState ToggleSidebar) = false /\
  step false (step false initialState ToggleSidebar) ToggleSidebar = initialState /\
  sidebarOpen (step true (handleChapterClick true "introduction" initialState) ToggleSidebar)
  = true.
Proof.
  split; [|split].
  - exact (proj1 (proj1 (toggleSidebar_effect false initialState) eq_refl)).
  - exact (proj2 (proj1 (toggleSidebar_effect false initialState) eq_refl)).
  - exact (proj1 (proj2 (toggleSidebar_effect true
                           (handleChapterClick true "introduction" initialState)) eq_refl)).
Defined.

(** ** Sidebar and main area are independent *)

Lemma mainView_ext (fc : FiqhContent) (st1 st2 : State) :
  selectedChapter st1 = selectedChapter st2 ->
  selectedSection st1 = selectedSection st2 ->
  mainView fc st1 = mainView fc st2.
Proof.
  intros Hc Hs. unfold mainView, selectedSectionData, selectedChapterData.
  now rewrite Hc, Hs.
Qed.

Lemma sidebar_events_keep_view (fc : FiqhContent) (evs : list (bool * Event)) (st : State) :
  forallb isSidebarEvent (map snd evs) = true ->
  mainView fc (run st evs) = mainView fc st.
Proof.
  revert st. induction evs as [|[isMobile e] evs IH]; intros st; simpl.
  - reflexivity.
  - intros H. apply andb_prop in H. destruct H as [He Hevs].
    rewrite (IH _ Hevs).
    destruct (sidebar_event_keeps_selection isMobile st e He) as [Hc Hs].
    now apply mainView_ext.
Qed.

Lemma section_events_keep_flag (evs : list (bool * Event)) (st : State) :
  forallb isSectionEvent (map snd evs) = true ->
  sidebarOpen (run st evs) = sidebarOpen st /\
  selectedChapter (run st evs) = selectedChapter st.
Proof.
  revert st. induction evs as [|[isMobile e] evs IH]; intros st; simpl.
  - now split.
  - intros H. apply andb_prop in H. destruct H as [He Hevs].
    destruct (IH (step isMobile st e) Hevs) as [Hflag Hch]. rewrite Hflag, Hch.
    destruct e; simpl in *; try discriminate He; now split.
Qed.

(** However often the sidebar is opened and closed, on whatever viewport,
    the main area shows what it showed before; and however many sections
    are opened and left again, the sidebar is shown or hidden as before. *)
Theorem sidebar_and_main_area_independent :
  forall (fc : FiqhContent) (st : State) (evs : list (bool * Event)),
    (forallb isSidebarEvent (map snd evs) = true ->
     mainView fc (run st evs) = mainView fc st) /\
    (forallb isSectionEvent (map snd evs) = true ->
     forall isMobile,
       isSidebarOpen isMobile (run st evs) = isSidebarOpen isMobile st).
Proof.
  intros fc st evs. split.
  - apply sidebar_events_keep_view.
  - intros H isMobile.
    destruct (section_events_keep_flag evs st H) as [Hflag Hch].
    unfold isSidebarOpen, sidebarShouldBeOpen. now rewrite Hflag, Hch.
Qed.

Lemma sidebar_and_main_area_independent_witness :
  mainView sampleContent
           (run (step false initialState (ChapterClick "introduction"))
                [(false, ToggleSidebar); (true, SetSidebar false); (true, ToggleSidebar)])
  = SectionList chIntro /\
  isSidebarOpen false
    (run (step false initialState (ChapterClick "introduction"))
         [(false, SectionClick "importance"); (false, BackToChapters)])
  = true.
Proof.
  split.
  - exact (proj1 (sidebar_and_main_area_independent sampleContent
                    (step false initialState (ChapterClick "introduction"))
                    [(false, ToggleSidebar); (true, SetSidebar false); (true, ToggleSidebar)])
                 eq_refl).
  - exact (proj2 (sidebar_and_main_area_independent sampleContent
                    (step false initialState (ChapterClick "introduction"))
                    [(false, SectionClick "importance"); (false, BackToChapters)])
                 eq_refl false).
Defined.

(** ** The highlighted button of the sidebar *)

Lemma filter_map_comm {A B : Type} (f : A -> B) (p : B -> bool) (l : list A) :
  filter p (map f l) = map f (filter (fun x => p (f x)) l).
Proof.
  induction l as [|a l IH]; simpl; [reflexivity|].
  destruct (p (f a)); simpl; now rewrite IH.
Qed.

Lemma filter_none_key {A : Type} (key : A -> string) (k : string) (l : list A) :
  (forall y, In y l -> key y <> k) ->
  filter (fun y => key y =? k) l = [].
Proof.
  induction l as [|a l IH]; simpl; [reflexivity|].
  intros H. destruct (String.eqb_spec (key a) k) as [Heq|_].
  - exfalso. now apply (H a (or_introl eq_refl)).
  - apply IH. intros y Hy. apply H. now right.
Qed.

Lemma filter_unique_key {A : Type} (key : A -> string) (l : list A) (x : A) :
  NoDup (map key l) -> In x l ->
  filter (fun y => key y =? key x) l = [x].
Proof.
  induction l as [|a l IH]; simpl; [intros _ []|].
  intros Hnd Hin. inversion Hnd as [|? ? Hnotin Hnd']; subst.
  destruct Hin as [->|Hin].
  - rewrite String.eqb_refl. f_equal.
    apply filter_none_key. intros y Hy Heq.
    apply Hnotin. rewrite <- Heq. now apply in_map.
  - destruct (String.eqb_spec (key a) (key x)) as [Heq|_].
    + exfalso. apply Hnotin. rewrite Heq. now apply in_map.
    + now apply IH.
Qed.

Lemma filter_all_false {A : Type} (p : A -> bool) (l : list A) :
  (forall y, In y l -> p y = false) -> filter p l = [].
Proof.
  induction l as [|a l IH]; simpl; [reflexivity|].
  intros H. rewrite (H a (or_introl eq_refl)). apply IH.
  intros y Hy. apply H. now right.
Qed.

Lemma sortedChapters_NoDup_ids (fc : FiqhContent) :
  NoDup (map id (chapters fc)) -> NoDup (map id (sortedChapters fc)).
Proof.
  apply Permutation_NoDup, Permutation_map, arraySort_perm.
Qed.

Lemma highlighted_chapters (fc : FiqhContent) (st : State) :
  map button_chapter (filter highlighted (sidebarButtons fc st))
  = filter (fun chapter => strictEq (id chapter) (selectedChapter st)) (sortedChapters fc).
Proof.
  unfold sidebarButtons. rewrite filter_map_comm, map_map. simpl.
  apply map_id.
Qed.

(** With pairwise different chapter ids, the sidebar highlights exactly one
    button when the selected chapter is found, the button of the chapter the
    lookup returns; when the lookup finds nothing, no button is highlighted.
    The chevron follows the highlight. *)
Theorem sidebar_highlights_selected_chapter :
  forall (fc : FiqhContent) (st : State),
    (forall ch : Chapter,
        NoDup (map id (chapters fc)) ->
        selectedChapterData fc st = Some ch ->
        map button_chapter (filter highlighted (sidebarButtons fc st)) = [ch]) /\
    (selectedChapterData fc st = None ->
     filter highlighted (sidebarButtons fc st) = []) /\
    filter chevron (sidebarButtons fc st) = filter highlighted (sidebarButtons fc st).
Proof.
  intros fc st. split; [|split].
  - intros ch Hnd Hch. rewrite highlighted_chapters.
    unfold selectedChapterData in Hch.
    pose proof (find_some _ _ Hch) as [Hin Heq].
    apply strictEq_true in Heq. rewrite Heq. simpl.
    apply (filter_unique_key id).
    + now apply sortedChapters_NoDup_ids.
    + now apply In_sortedChapters.
  - intros Hnone.
    assert (H : map button_chapter (filter highlighted (sidebarButtons fc st)) = []).
    { rewrite highlighted_chapters. apply filter_all_false.
      intros y Hy. apply In_sortedChapters in Hy.
      exact (find_none _ _ Hnone y Hy). }
    now apply map_eq_nil in H.
  - unfold sidebarButtons. rewrite !filter_map_comm. reflexivity.
Qed.

Lemma sidebar_highlights_selected_chapter_witness :
  map button_chapter
      (filter highlighted
              (sidebarButtons sampleContent (step false initialState (ChapterClick "waqf"))))
  = [chWaqf] /\
  filter highlighted (sidebarButtons sampleContent staleChapterState) = [].
Proof.
  split.
  - refine (proj1 (sidebar_highlights_selected_chapter sampleContent
                     (step false initialState (ChapterClick "waqf"))) chWaqf _ eq_refl).
    simpl. repeat constructor; simpl; intuition discriminate.
  - exact (proj1 (proj2 (sidebar_highlights_selected_chapter sampleContent staleChapterState))
                 eq_refl).
Defined.

(** ** Chapters that are already in order *)

Lemma arraySort_length {T : Type} (cmp : T -> T -> Z) (l : list T) :
  length (arraySort cmp l) = length l.
Proof.
  symmetry. apply Permutation_length, arraySort_perm.
Qed.

(** A store whose chapters are already ascending in [order] is displayed in
    store order, unchanged; so sorting what is already sorted changes
    nothing, and the page lists as many chapters as the store holds. *)
Theorem sortedChapters_of_sorted_store :
  forall fc : FiqhContent,
    (StronglySorted orderLe (chapters fc) -> sortedChapters fc = chapters fc) /\
    arraySort compareOrder (sortedChapters fc) = sortedChapters fc /\
    length (sortedChapters fc) = length (chapters fc).
Proof.
  intros fc. split; [|split].
  - intros Hs. symmetry. unfold sortedChapters.
    apply stable_sort_unique; [exact Hs|reflexivity].
  - symmetry. apply stable_sort_unique; [apply arraySort_sorted|reflexivity].
  - apply arraySort_length.
Qed.

Lemma sortedChapters_of_sorted_store_witness :
  sortedChapters (mkContent (meta sampleContent) [chMakharij; chIntro; chWaqf])
  = [chMakharij; chIntro; chWaqf].
Proof.
  refine (proj1 (sortedChapters_of_sorted_store
                   (mkContent (meta sampleContent) [chMakharij; chIntro; chWaqf])) _).
  simpl. unfold orderLe.
  repeat (constructor; simpl; try lia).
Defined.

(** ** The states that can be reached *)



Lemma offered_toggle (fc : FiqhContent) (isMobile : bool) (st : State) :
  In ToggleSidebar (offered fc isMobile st).
Proof. now left. Qed.

Lemma offered_home_card (fc : FiqhContent) (isMobile : bool) (st : State) (ch : Chapter) :
  truthy (selectedChapter st) = false ->
  In ch (chapters fc) ->
  In (ChapterClick (id ch)) (offered fc isMobile st).
Proof.
  intros Ht Hin. unfold offered. right.
  apply in_or_app; right. apply in_or_app; right.
  rewrite (mainView_falsy_chapter fc st Ht).
  unfold chapterClicks. apply in_map_iff. exists ch.
  split; [reflexivity|now apply In_sortedChapters].
Qed.

Lemma offered_section_card (fc : FiqhContent) (isMobile : bool) (st : State)
      (ch : Chapter) (sec : Sect) :
  mainView fc st = SectionList ch ->
  In sec (sections ch) ->
  In (SectionClick (sec_id sec)) (offered fc isMobile st).
Proof.
  intros Hview Hin. unfold offered. right.
  apply in_or_app; right. apply in_or_app; right.
  rewrite Hview. unfold sectionClicks. apply in_map_iff. now exists sec.
Qed.

Lemma offered_keeps_section_under_chapter
      (fc : FiqhContent) (isMobile : bool) (st : State) (e : Event) :
  (selectedSection st <> None -> truthy (selectedChapter st) = true) ->
  In e (offered fc isMobile st) ->
  selectedSection (step isMobile st e) <> None ->
  truthy (selectedChapter (step isMobile st e)) = true.
Proof.
  intros Hinv H. apply offered_inv in H.
  destruct H as [->|[[-> _]|[(ch & _ & -> & _)|[(ch & sec & Hview & _ & ->)|[-> _]]]]];
    simpl; try exact Hinv.
  - intros Hbad. now contradiction Hbad.
  - intros _. now apply mainView_SectionList_inv in Hview.
  - intros Hbad. now contradiction Hbad.
Qed.

Lemma uiReachable_flag (fc : FiqhContent) (c s : Nullable) (open : bool) :
  uiReachable fc (mkState c s true) -> uiReachable fc (mkState c s open).
Proof.
  intros H. destruct open; [exact H|].
  change (uiReachable fc (step false (mkState c s true) ToggleSidebar)).
  apply ui_step; [exact H|apply offered_toggle].
Qed.

(** The states a user can bring the page to are exactly those whose
    selection points into the store and whose selected section, if any,
    sits under a chapter of non-empty id: each of them is reached with at
    most three clicks on a wide viewport, and no click leads outside. *)
Theorem uiReachable_characterisation :
  forall (fc : FiqhContent) (st : State),
    uiReachable fc st <->
    selectionResolves fc st = true /\
    (selectedSection st <> None -> truthy (selectedChapter st) = true).
Proof.
  intros fc st. split.
  - intros H. induction H as [|isMobile st e _ [IHres IHsec] Hin].
    + split; [reflexivity|]. intros Hbad. now contradiction Hbad.
    + split.
      * now apply offered_keeps_resolved.
      * now apply (offered_keeps_section_under_chapter fc).
  - destruct st as [[c|] [s|] open]; unfold selectionResolves; simpl;
      intros [Hres Hsec].
    + apply andb_prop in Hres. destruct Hres as [Hch Hsd].
      unfold selectedSectionData in Hsd.
      destruct (selectedChapterData fc (mkState (Some c) (Some s) open)) as [ch|] eqn:Hfind;
        [|discriminate Hch].
      destruct (find _ (sections ch)) as [sec|] eqn:Hfs; [|discriminate Hsd].
      unfold selectedChapterData in Hfind. simpl in Hfind, Hfs.
      pose proof (find_some _ _ Hfind) as [Hin Hid].
      pose proof (find_some _ _ Hfs) as [Hins Hsid].
      apply String.eqb_eq in Hid. apply String.eqb_eq in Hsid. subst c s.
      apply uiReachable_flag.
      change (uiReachable fc (step false (step false initialState (ChapterClick (id ch)))
                                   (SectionClick (sec_id sec)))).
      apply ui_step.
      * apply ui_step; [apply ui_init|]. now apply offered_home_card.
      * apply (offered_section_card fc false _ ch sec); [|exact Hins].
        unfold mainView, selectedChapterData. simpl.
        rewrite (Hsec ltac:(discriminate)). simpl. now rewrite Hfind.
    + destruct (selectedChapterData fc (mkState (Some c) None open)) as [ch|] eqn:Hfind;
        [|discriminate Hres].
      unfold selectedChapterData in Hfind. simpl in Hfind.
      pose proof (find_some _ _ Hfind) as [Hin Hid].
      apply String.eqb_eq in Hid. subst c.
      apply uiReachable_flag.
      change (uiReachable fc (step false initialState (ChapterClick (id ch)))).
      apply ui_step; [apply ui_init|]. now apply offered_home_card.
    + discriminate Hres.
    + apply uiReachable_flag. apply ui_init.
Qed.

Lemma uiReachable_characterisation_witness :
  uiReachable sampleContent (mkState (Some "introduction") (Some "importance") false) /\
  selectionResolves sampleContent
    (step true (step true initialState (ChapterClick "makharij")) (SectionClick "importance"))
  = true.
Proof.
  split.
  - apply (proj2 (uiReachable_characterisation sampleContent
                    (mkState (Some "introduction") (Some "importance") false))).
    split; [reflexivity|]. intros _. reflexivity.
  - refine (proj1 (proj1 (uiReachable_characterisation sampleContent _) _)).
    apply ui_step; [apply ui_step; [apply ui_init|]|].
    + vm_compute. tauto.
    + vm_compute. tauto.
Defined.

(** ** The sidebar on a narrow viewport *)

(** On a narrow viewport the sidebar is only ever shown over the home page,
    and the dark overlay comes with it; on a wide viewport there is never an
    overlay. *)
Theorem mobile_sidebar_only_over_home :
  forall (fc : FiqhContent) (st : State),
    (isSidebarOpen true st = true ->
     mainView fc st = ChapterList (sortedChapters fc) /\
     overlayShown true st = true /\
     sidebar fc true st = Some (sidebarButtons fc st)) /\
    overlayShown false st = false.
Proof.
  intros fc st. split.
  - intros Hopen. split; [|split].
    + apply mainView_falsy_chapter.
      unfold isSidebarOpen, sidebarShouldBeOpen in Hopen.
      destruct (sidebarOpen st); [|discriminate Hopen].
      simpl in Hopen. now apply negb_true_iff in Hopen.
    + unfold overlayShown. now rewrite Hopen.
    + unfold sidebar. now rewrite Hopen.
  - unfold overlayShown. apply andb_false_r.
Qed.

Lemma mobile_sidebar_only_over_home_witness :
  mainView sampleContent initialState = ChapterList (sortedChapters sampleContent) /\
  overlayShown true initialState = true.
Proof.
  destruct (proj1 (mobile_sidebar_only_over_home sampleContent initialState) eq_refl)
    as (Hview & Hoverlay & _).
  split; [exact Hview|exact Hoverlay].
Defined.
